(** * Packet filters of the mesh-networking node (filters.py)

    A shallow embedding of the four stateful/stateless filters of
    [filters.py] together with the properties their specification states.

    Python values that the filters store or compare are kept apart by type:
    a [str] never equals a [bytes] object, and [str in bytes] raises
    [TypeError].  Filter state is threaded explicitly: every method maps a
    state, a packet and an interface to a result and a new state. *)

From Stdlib Require Import ZArith List Lia.
From Stdlib Require Import Strings.String Strings.Ascii Strings.Byte.
From stdpp Require Import base gmap strings list pretty.

Open Scope Z_scope.

(** ** Python values *)

Abbreviation bytes := (list byte).

(** The two kinds of Python object that reach the filters' containers. *)
Inductive pyval : Type :=
| PStr (s : string)
| PBytes (b : bytes).

(** A packet argument: Python's [None] or a [bytes] object. *)
Abbreviation packet := (option bytes).

(** An interface is used as a dictionary key and rendered with [str()];
    it is modelled by its name. *)
Abbreviation interface := string.

Definition byte_to_Z (b : byte) : Z := Z.of_N (Byte.to_N b).

Definition byte_of_Z (z : Z) : byte :=
  byte_of_ascii (ascii_of_N (Z.to_N (z mod 256))).

(** [b"..."] literals. *)
Definition b_ (s : string) : bytes := list_byte_of_string s.

#[global] Instance byte_eq_decision : EqDecision byte := Byte.byte_eq_dec.

#[global] Program Instance byte_countable : Countable byte :=
  inj_countable Byte.to_N Byte.of_N _.
Next Obligation. intros x. apply Byte.of_to_N. Qed.

#[global] Instance pyval_eq_decision : EqDecision pyval.
Proof. solve_decision. Defined.

Definition pyval_to_sum (v : pyval) : string + bytes :=
  match v with PStr s => inl s | PBytes b => inr b end.

Definition pyval_of_sum (v : string + bytes) : pyval :=
  match v with inl s => PStr s | inr b => PBytes b end.

#[global] Program Instance pyval_countable : Countable pyval :=
  inj_countable' pyval_to_sum pyval_of_sum _.
Next Obligation. by intros []. Qed.

(** Truth value of a packet: [not packet] holds for [None] and for [b""]. *)
Definition truthy (p : packet) : bool :=
  match p with
  | None => false
  | Some [] => false
  | Some (_ :: _) => true
  end.

(** [collections.defaultdict]: reading a missing key stores the default
    under that key and returns it. *)
Definition dd_get `{Countable K} {V} (default : V) (m : gmap K V) (k : K)
  : V * gmap K V :=
  match m !! k with
  | Some v => (v, m)
  | None => (default, <[k := default]> m)
  end.

(** ** MD5 ([hashlib.md5]) on 32-bit words kept in [Z] *)

Module MD5.

Definition add32 (x y : Z) : Z := (x + y) mod 2 ^ 32.
Definition not32 (x : Z) : Z := Z.lxor x 0xFFFFFFFF.
Definition rotl32 (x c : Z) : Z :=
  Z.lor (Z.shiftl x c mod 2 ^ 32) (Z.shiftr x (32 - c)).

Definition K : list Z :=
  [0xd76aa478; 0xe8c7b756; 0x242070db; 0xc1bdceee;
   0xf57c0faf; 0x4787c62a; 0xa8304613; 0xfd469501;
   0x698098d8; 0x8b44f7af; 0xffff5bb1; 0x895cd7be;
   0x6b901122; 0xfd987193; 0xa679438e; 0x49b40821;
   0xf61e2562; 0xc040b340; 0x265e5a51; 0xe9b6c7aa;
   0xd62f105d; 0x02441453; 0xd8a1e681; 0xe7d3fbc8;
   0x21e1cde6; 0xc33707d6; 0xf4d50d87; 0x455a14ed;
   0xa9e3e905; 0xfcefa3f8; 0x676f02d9; 0x8d2a4c8a;
   0xfffa3942; 0x8771f681; 0x6d9d6122; 0xfde5380c;
   0xa4beea44; 0x4bdecfa9; 0xf6bb4b60; 0xbebfbc70;
   0x289b7ec6; 0xeaa127fa; 0xd4ef3085; 0x04881d05;
   0xd9d4d039; 0xe6db99e5; 0x1fa27cf8; 0xc4ac5665;
   0xf4292244; 0x432aff97; 0xab9423a7; 0xfc93a039;
   0x655b59c3; 0x8f0ccc92; 0xffeff47d; 0x85845dd1;
   0x6fa87e4f; 0xfe2ce6e0; 0xa3014314; 0x4e0811a1;
   0xf7537e82; 0xbd3af235; 0x2ad7d2bb; 0xeb86d391].

Definition R : list Z :=
  [7; 12; 17; 22; 7; 12; 17; 22; 7; 12; 17; 22; 7; 12; 17; 22;
   5; 9; 14; 20; 5; 9; 14; 20; 5; 9; 14; 20; 5; 9; 14; 20;
   4; 11; 16; 23; 4; 11; 16; 23; 4; 11; 16; 23; 4; 11; 16; 23;
   6; 10; 15; 21; 6; 10; 15; 21; 6; 10; 15; 21; 6; 10; 15; 21].

(** Little-endian rendering of the low [n] bytes of [z]. *)
Fixpoint le_bytes (n : nat) (z : Z) : bytes :=
  match n with
  | O => []
  | S n' => byte_of_Z z :: le_bytes n' (z / 256)
  end.

Fixpoint le_word (bs : bytes) : Z :=
  match bs with
  | [] => 0
  | b :: bs' => byte_to_Z b + 256 * le_word bs'
  end.

Definition pad (msg : bytes) : bytes :=
  let n := Z.of_nat (length msg) in
  msg ++ [x80] ++ repeat x00 (Z.to_nat ((55 - n) mod 64))
      ++ le_bytes 8 ((8 * n) mod 2 ^ 64).

Fixpoint words (n : nat) (bs : bytes) : list Z :=
  match n with
  | O => []
  | S n' => le_word (take 4 bs) :: words n' (drop 4 bs)
  end.

Definition regs : Type := Z * Z * Z * Z.

Definition round (M : list Z) (abcd : regs) (i : nat) : regs :=
  let '(a, b, c, d) := abcd in
  let j := Z.of_nat i in
  let '(f, g) :=
    if j <? 16 then (Z.lor (Z.land b c) (Z.land (not32 b) d), j)
    else if j <? 32 then
      (Z.lor (Z.land d b) (Z.land (not32 d) c), (5 * j + 1) mod 16)
    else if j <? 48 then (Z.lxor (Z.lxor b c) d, (3 * j + 5) mod 16)
    else (Z.lxor c (Z.lor b (not32 d)), (7 * j) mod 16) in
  let f' := (f + a + nth i K 0 + nth (Z.to_nat g) M 0) mod 2 ^ 32 in
  (d, add32 b (rotl32 f' (nth i R 0)), b, c).

Definition block (abcd : regs) (chunk : bytes) : regs :=
  let '(a0, b0, c0, d0) := abcd in
  let '(a, b, c, d) := fold_left (round (words 16 chunk)) (seq 0 64) abcd in
  (add32 a0 a, add32 b0 b, add32 c0 c, add32 d0 d).

Fixpoint blocks (n : nat) (abcd : regs) (bs : bytes) : regs :=
  match n with
  | O => abcd
  | S n' => blocks n' (block abcd (take 64 bs)) (drop 64 bs)
  end.

Definition iv : regs := (0x67452301, 0xefcdab89, 0x98badcfe, 0x10325476).

Definition digest (msg : bytes) : bytes :=
  let padded := pad msg in
  let '(a, b, c, d) := blocks (length padded / 64)%nat iv padded in
  le_bytes 4 a ++ le_bytes 4 b ++ le_bytes 4 c ++ le_bytes 4 d.

Definition hexdigits : list ascii :=
  list_ascii_of_string "0123456789abcdef".

Definition hex_digit (z : Z) : ascii :=
  nth (Z.to_nat z) hexdigits "0"%char.

Fixpoint hex (bs : bytes) : string :=
  match bs with
  | [] => EmptyString
  | b :: bs' =>
      String (hex_digit (byte_to_Z b / 16))
        (String (hex_digit (byte_to_Z b mod 16)) (hex bs'))
  end.

Definition hexdigest (msg : bytes) : string := hex (digest msg).

(** The characters [0-9a-f]. *)
Definition is_hex_lower (c : ascii) : bool :=
  let n := N_of_ascii c in
  ((48 <=? n) && (n <=? 57) || (97 <=? n) && (n <=? 102))%N.

End MD5.

(** ** Text to bytes

    Python text is modelled by [string], each character standing for the
    code point of the same number (below 256); [str.encode('utf-8')] then
    needs the one-byte and two-byte forms only. *)

Definition utf8_char (c : ascii) : bytes :=
  let n := Z.of_N (N_of_ascii c) in
  if n <? 128 then [byte_of_Z n]
  else [byte_of_Z (0xC0 + n / 64); byte_of_Z (0x80 + n mod 64)].

Fixpoint utf8_encode (s : string) : bytes :=
  match s with
  | EmptyString => []
  | String c s' => utf8_char c ++ utf8_encode s'
  end.

(** [l[lo:hi]] for non-negative bounds. *)
Definition slice {A} (lo hi : nat) (l : list A) : list A :=
  take (hi - lo)%nat (drop lo l).

(** ** BaseFilter *)

Module BaseFilter.

Definition tr (p : packet) (i : interface) : packet := p.
Definition tx (p : packet) (i : interface) : packet := p.

End BaseFilter.

(** ** DuplicateFilter *)

Module DuplicateFilter.

Record state : Type := {
  last_sent : gmap string pyval;   (* defaultdict(str) *)
  last_recv : gmap string pyval
}.

Definition __init__ : state := {| last_sent := ∅; last_recv := ∅ |}.

Definition tr (st : state) (p : packet) (i : interface) : packet * state :=
  match p with
  | Some pk =>
      if truthy p then
        let '(last, m) := dd_get (PStr "") (last_recv st) i in
        if decide (PBytes pk = last) then
          (None, {| last_sent := last_sent st; last_recv := m |})
        else
          (Some pk, {| last_sent := last_sent st;
                       last_recv := <[i := PBytes pk]> m |})
      else (None, st)
  | None => (None, st)
  end.

Definition tx (st : state) (p : packet) (i : interface) : packet * state :=
  match p with
  | Some pk =>
      if truthy p then
        let '(last, m) := dd_get (PStr "") (last_sent st) i in
        if decide (PBytes pk = last) then
          (None, {| last_sent := m; last_recv := last_recv st |})
        else
          (Some pk, {| last_sent := <[i := PBytes pk]> m;
                       last_recv := last_recv st |})
      else (None, st)
  | None => (None, st)
  end.

(** Successive [tr] calls on one instance. *)
Fixpoint trs (st : state) (cs : list (packet * interface))
  : list packet * state :=
  match cs with
  | [] => ([], st)
  | (p, i) :: cs' =>
      let '(r, st') := tr st p i in
      let '(rs, st'') := trs st' cs' in
      (r :: rs, st'')
  end.

(** The state in which interface [i] last received [pk]. *)
Definition set_recv (st : state) (i : interface) (pk : bytes) : state :=
  {| last_sent := last_sent st;
     last_recv := <[i := PBytes pk]> (last_recv st) |}.

(** Mixed sequences of [tx] and [tr] calls on one instance. *)
Inductive call : Type :=
| Send (p : packet) (i : interface)
| Receive (p : packet) (i : interface).

Definition step (st : state) (c : call) : packet * state :=
  match c with
  | Send p i => tx st p i
  | Receive p i => tr st p i
  end.

Fixpoint run (st : state) (cs : list call) : list packet * state :=
  match cs with
  | [] => ([], st)
  | c :: cs' =>
      let '(r, st') := step st c in
      let '(rs, st'') := run st' cs' in
      (r :: rs, st'')
  end.

(** Exchanging the two directions. *)
Definition swap (st : state) : state :=
  {| last_sent := last_recv st; last_recv := last_sent st |}.

Definition flip (c : call) : call :=
  match c with
  | Send p i => Receive p i
  | Receive p i => Send p i
  end.

(** The packet a map remembers for an interface, if it is one. *)
Definition last_packet (m : gmap string pyval) (i : interface)
  : option bytes :=
  match m !! i with
  | Some (PBytes b) => Some b
  | _ => None
  end.

(** Removal of immediate repeats from a stream whose previous element was
    [prev]. *)
Fixpoint dedup_from (prev : option bytes) (ps : list bytes) : list bytes :=
  match ps with
  | [] => []
  | p :: ps' =>
      if decide (prev = Some p) then dedup_from prev ps'
      else p :: dedup_from (Some p) ps'
  end.

Fixpoint adjacent_distinct (l : list bytes) : Prop :=
  match l with
  | a :: (b :: _) as l' => a <> b /\ adjacent_distinct l'
  | _ => True
  end.

(** The non-empty packets a call offers to [tr] on interface [i], and the
    packets [tr] passed on [i]. *)
Definition offered1 (i : interface) (c : call) : list bytes :=
  match c with
  | Receive (Some pk) j =>
      if truthy (Some pk) && bool_decide (j = i) then [pk] else []
  | _ => []
  end.

Definition passed1 (i : interface) (c : call) (r : packet) : list bytes :=
  match c, r with
  | Receive _ j, Some pk => if bool_decide (j = i) then [pk] else []
  | _, _ => []
  end.

Fixpoint offered (i : interface) (cs : list call) : list bytes :=
  match cs with
  | [] => []
  | c :: cs' => offered1 i c ++ offered i cs'
  end.

Fixpoint passed (i : interface) (cs : list call) (rs : list packet)
  : list bytes :=
  match cs, rs with
  | c :: cs', r :: rs' => passed1 i c r ++ passed i cs' rs'
  | _, _ => []
  end.

(** Every stored value is a non-empty [bytes] packet. *)
Definition holds_packets (m : gmap string pyval) : Prop :=
  forall i v, m !! i = Some v -> exists pk, v = PBytes pk /\ pk <> [].

End DuplicateFilter.

(** ** LoopbackFilter

    [hash] is Python's built-in [hash] on [bytes]: some function of the
    content, fixed for the life of one interpreter process. *)

Module LoopbackFilter.

Record state : Type := {
  sent_hashes : gmap Z Z           (* defaultdict(int) *)
}.

Definition __init__ : state := {| sent_hashes := ∅ |}.

(** The count a read of [sent_hashes[h]] gives. *)
Definition count (st : state) (h : Z) : Z :=
  default 0 (sent_hashes st !! h).

Inductive call : Type :=
| Send (p : packet) (i : interface)
| Receive (p : packet) (i : interface).

Section WithHash.

Variable hash : bytes -> Z.

Definition tr (st : state) (p : packet) (i : interface) : packet * state :=
  match p with
  | Some pk =>
      if truthy p then
        let '(n, m) := dd_get 0 (sent_hashes st) (hash pk) in
        if 0 <? n then
          let '(n', m') := dd_get 0 m (hash pk) in
          (None, {| sent_hashes := <[hash pk := n' - 1]> m' |})
        else (Some pk, {| sent_hashes := m |})
      else (None, st)
  | None => (None, st)
  end.

Definition tx (st : state) (p : packet) (i : interface) : packet * state :=
  match p with
  | Some pk =>
      if truthy p then
        let '(n, m) := dd_get 0 (sent_hashes st) (hash pk) in
        (Some pk, {| sent_hashes := <[hash pk := n + 1]> m |})
      else (None, st)
  | None => (None, st)
  end.

Definition step (st : state) (c : call) : packet * state :=
  match c with
  | Send p i => tx st p i
  | Receive p i => tr st p i
  end.

(** A sequence of calls on one instance: the results in order and the
    final state. *)
Fixpoint run (st : state) (cs : list call) : list packet * state :=
  match cs with
  | [] => ([], st)
  | c :: cs' =>
      let '(r, st') := step st c in
      let '(rs, st'') := run st' cs' in
      (r :: rs, st'')
  end.

(** Bookkeeping over a history of calls: the sends that credited bucket
    [h], and the receives that were suppressed against it. *)
Definition is_send_of (h : Z) (c : call) : bool :=
  match c with
  | Send (Some pk) _ => truthy (Some pk) && bool_decide (hash pk = h)
  | _ => false
  end.

Definition is_echo_of (h : Z) (c : call) (r : packet) : bool :=
  match c, r with
  | Receive (Some pk) _, None =>
      truthy (Some pk) && bool_decide (hash pk = h)
  | _, _ => false
  end.

Fixpoint sends (h : Z) (cs : list call) : Z :=
  match cs with
  | [] => 0
  | c :: cs' => (if is_send_of h c then 1 else 0) + sends h cs'
  end.

Fixpoint echoes (h : Z) (cs : list call) (rs : list packet) : Z :=
  match cs, rs with
  | c :: cs', r :: rs' =>
      (if is_echo_of h c r then 1 else 0) + echoes h cs' rs'
  | _, _ => 0
  end.

End WithHash.

(** *** Dependence on the hash function

    Python salts [hash] of [bytes] per interpreter process, so two
    processes run the filter with two different functions.  Which receives
    are suppressed depends on the function only through the collisions it
    has among the packets that are actually sent and received. *)

Definition packets_of (cs : list call) : list bytes :=
  omap (fun c => match c with
                 | Send p _ | Receive p _ => if truthy p then p else None
                 end) cs.

Definition same_collisions (h1 h2 : bytes -> Z) (l : list bytes) : Prop :=
  forall p q, p ∈ l -> q ∈ l -> (h1 p = h1 q <-> h2 p = h2 q).

(** Two filter states, one per process, agree on the bucket of every
    packet of [l]. *)
Definition agree (h1 h2 : bytes -> Z) (l : list bytes) (s1 s2 : state)
  : Prop :=
  forall p, p ∈ l -> count s1 (h1 p) = count s2 (h2 p).

(** Sample content hashes. *)
Definition hash_sum (pk : bytes) : Z :=
  fold_right (fun b acc => byte_to_Z b + acc) 0 pk.

Definition hash_poly (pk : bytes) : Z :=
  fold_left (fun acc b => acc * 257 + byte_to_Z b + 1) pk 0.

End LoopbackFilter.

(** ** UniqueFilter *)

Module UniqueFilter.

Record state : Type := {
  seen : gset pyval;
  our_id : string
}.

(** [r] is the draw of [random.randint(10000, 99999)]. *)
Definition __init__ (r : Z) : state :=
  {| seen := ∅; our_id := pretty r |}.

Definition __md5__ (s : string) : string :=
  MD5.hexdigest (utf8_encode s).

Definition add (v : pyval) (st : state) : state :=
  {| seen := {[v]} ∪ seen st; our_id := our_id st |}.

Definition tr (st : state) (p : packet) (i : interface) : packet * state :=
  match p with
  | Some pk =>
      if truthy p then
        if decide (b_ "HASH:" = slice 0 5 pk) then
          let packet_uuid := PBytes (slice 5 37 pk) in
          if decide (packet_uuid ∈ seen st) then (None, st)
          else (Some pk, add packet_uuid st)
        else (None, st)
      else (None, st)
  | None => (None, st)
  end.

(** [now] is the text of the clock reading, [str(time.time())]. *)
Definition tx (now : string) (st : state) (p : packet) (i : interface)
  : packet * state :=
  match p with
  | Some pk =>
      if truthy p then
        if decide (b_ "HASH:" = slice 0 5 pk) then
          let packet_uuid := PBytes (slice 5 37 pk) in
          (Some pk, add packet_uuid st)
        else
          let packet_uuid := __md5__ (our_id st +:+ i +:+ now) in
          (Some (b_ "HASH:" ++ utf8_encode packet_uuid ++ b_ "; " ++ pk),
           add (PStr packet_uuid) st)
      else (None, st)
  | None => (None, st)
  end.

(** The identifier [tx] synthesises for a packet that originates here. *)
Definition fresh_id (now : string) (st : state) (i : interface) : string :=
  __md5__ (our_id st +:+ i +:+ now).

(** The packet [tx] returns for an untagged packet [p]. *)
Definition tagged (now : string) (st : state) (i : interface) (p : bytes)
  : bytes :=
  b_ "HASH:" ++ b_ (fresh_id now st i) ++ b_ "; " ++ p.

(** Sequences of calls on one instance; a send carries the clock text. *)
Inductive call : Type :=
| Send (now : string) (p : packet) (i : interface)
| Receive (p : packet) (i : interface).

Definition step (st : state) (c : call) : packet * state :=
  match c with
  | Send now p i => tx now st p i
  | Receive p i => tr st p i
  end.

Fixpoint run (st : state) (cs : list call) : list packet * state :=
  match cs with
  | [] => ([], st)
  | c :: cs' =>
      let '(r, st') := step st c in
      let '(rs, st'') := run st' cs' in
      (r :: rs, st'')
  end.

(** How many receives of a packet whose bytes 5..37 are [u] were passed. *)
Definition delivered1 (u : bytes) (c : call) (r : packet) : nat :=
  match c, r with
  | Receive (Some pk) _, Some _ =>
      if bool_decide (slice 5 37 pk = u) then 1%nat else 0%nat
  | _, _ => 0%nat
  end.

Fixpoint delivered (u : bytes) (cs : list call) (rs : list packet) : nat :=
  match cs, rs with
  | c :: cs', r :: rs' => (delivered1 u c r + delivered u cs' rs')%nat
  | _, _ => 0%nat
  end.

End UniqueFilter.

(** ** StringFilter *)

Inductive exn : Type := TypeError.

Inductive result (A : Type) : Type :=
| Return (a : A)
| Raise (e : exn).
Arguments Return {A} a.
Arguments Raise {A} e.

Definition bind {A B} (r : result A) (k : A -> result B) : result B :=
  match r with
  | Return a => k a
  | Raise e => Raise e
  end.

Fixpoint starts_with (pat l : bytes) : bool :=
  match pat, l with
  | [], _ => true
  | _ :: _, [] => false
  | a :: pat', b :: l' => if decide (a = b) then starts_with pat' l' else false
  end.

Fixpoint find (pat l : bytes) : bool :=
  starts_with pat l ||
  match l with
  | [] => false
  | _ :: l' => find pat l'
  end.

(** [pattern in packet] for a [bytes] packet: a [bytes] pattern is searched
    for, a [str] pattern raises. *)
Definition contains (pattern : pyval) (pk : bytes) : result bool :=
  match pattern with
  | PBytes pat => Return (find pat pk)
  | PStr _ => Raise TypeError
  end.

(** What the specification means by "substring". *)
Definition substring (pat l : bytes) : Prop :=
  exists l1 l2, l = l1 ++ pat ++ l2.

Module StringFilter.

(** [match] builds a subclass [DefinedStringFilter] whose class attributes
    are the pattern and the flag; [tr] runs on an instance of it and reads
    them through [self]. *)
Record cls : Type := {
  pattern : pyval;
  inverse : bool
}.

Definition tr (self : cls) (p : packet) (i : interface) : result packet :=
  match p with
  | Some pk =>
      if truthy p then
        if negb (inverse self) then
          bind (contains (pattern self) pk) (fun b =>
          Return (if b then Some pk else None))
        else
          bind (contains (pattern self) pk) (fun b =>
          Return (if negb b then Some pk else None))
      else Return None
  | None => Return None
  end.

Definition tx (self : cls) (p : packet) (i : interface) : result packet :=
  Return (BaseFilter.tx p i).

Definition match_ (pattern : pyval) (inverse : bool) : cls :=
  {| pattern := pattern; inverse := inverse |}.

Definition dontmatch (pattern : pyval) : cls := match_ pattern true.

End StringFilter.

(** * Properties *)

Example md5_empty : MD5.hexdigest (b_ "") = "d41d8cd98f00b204e9800998ecf8427e".
Proof. vm_compute. reflexivity. Qed.

Example md5_abc : MD5.hexdigest (b_ "abc") = "900150983cd24fb0d6963f7d28e17f72".
Proof. vm_compute. reflexivity. Qed.

(** ** DuplicateFilter *)

Module DuplicateFilterProofs.
Import DuplicateFilter.

(** A non-empty packet is dropped exactly when it is the one remembered
    for the interface; otherwise it is remembered and passed. *)
Lemma tr_nonempty (st : state) (pk : bytes) (i : interface) :
  pk <> [] ->
  tr st (Some pk) i =
    if decide (last_recv st !! i = Some (PBytes pk)) then (None, st)
    else (Some pk, set_recv st i pk).
Proof.
  intros Hne. destruct pk as [|b pk]; [done|].
  unfold tr, dd_get, set_recv; cbn [truthy].
  destruct (last_recv st !! i) as [v|] eqn:Hv.
  - destruct (decide (PBytes (b :: pk) = v)) as [<-|Hd].
    + rewrite decide_True by done. by destruct st.
    + rewrite decide_False by congruence. done.
  - rewrite decide_False by done. rewrite decide_False by done.
    by rewrite insert_insert_eq.
Qed.

Lemma tr_pass (st : state) (pk : bytes) (i : interface) :
  pk <> [] -> last_recv st !! i <> Some (PBytes pk) ->
  tr st (Some pk) i = (Some pk, set_recv st i pk).
Proof. intros Hne Hl. rewrite tr_nonempty by done. by rewrite decide_False. Qed.

Lemma tr_drop (st : state) (pk : bytes) (i : interface) :
  pk <> [] -> last_recv st !! i = Some (PBytes pk) ->
  tr st (Some pk) i = (None, st).
Proof. intros Hne Hl. rewrite tr_nonempty by done. by rewrite decide_True. Qed.

Lemma set_recv_lookup (st : state) (i : interface) (pk : bytes) :
  last_recv (set_recv st i pk) !! i = Some (PBytes pk).
Proof. apply lookup_insert_eq. Qed.

Lemma set_recv_lookup_ne (st : state) (i j : interface) (pk : bytes) :
  i <> j -> last_recv (set_recv st i pk) !! j = last_recv st !! j.
Proof. intros Hij. by apply lookup_insert_ne. Qed.

(** After any [tr] of a non-empty packet the interface remembers it. *)
Lemma tr_remembers (st : state) (pk : bytes) (i : interface) :
  pk <> [] -> last_recv (tr st (Some pk) i).2 !! i = Some (PBytes pk).
Proof.
  intros Hne. rewrite tr_nonempty by done. case_decide; [done|].
  apply set_recv_lookup.
Qed.

(** C1, as stated, at the empty packet: [b""] differs from [p], is
    received between two receives of [p], and the second [p] is still
    dropped.  Also, on an instance that has just received [p], two further
    consecutive receives of [p] are both dropped. *)
Lemma C1_counterexample :
  let p := b_ "a" in
  let q := b_ "" in
  p <> [] /\ q <> p /\
  (trs __init__ [(Some p, "eth0"); (Some q, "eth0"); (Some p, "eth0")]).1
    = [Some p; None; None] /\
  (trs (tr __init__ (Some p) "eth0").2
       [(Some p, "eth0"); (Some p, "eth0")]).1 = [None; None].
Proof. cbn zeta. split; [done|]. split; [done|]. split; reflexivity. Qed.

(** C1 (amended): for every interface [i] and non-empty packet [p], two
    consecutive receives of [p] on an instance that is fresh, or whose last
    packet on [i] is not [p], return [p] then absent; when a different
    non-empty packet [q] is received on [i] in between, the second receive
    of [p] returns [p], whatever the state before; on a fresh instance [p]
    on "eth0" and then on "eth1" is returned both times, and so for any two
    distinct interfaces neither of which last saw [p]. *)
Theorem C1_duplicate_suppression
    (st : state) (p q : bytes) (i j : interface) :
  p <> [] -> q <> [] -> q <> p ->
  (trs __init__ [(Some p, i); (Some p, i)]).1 = [Some p; None] /\
  (last_recv st !! i <> Some (PBytes p) ->
   (trs st [(Some p, i); (Some p, i)]).1 = [Some p; None]) /\
  (exists r, (trs st [(Some p, i); (Some q, i); (Some p, i)]).1
             = [r; Some q; Some p]) /\
  (trs __init__ [(Some p, i); (Some q, i); (Some p, i)]).1
    = [Some p; Some q; Some p] /\
  (trs __init__ [(Some p, "eth0"); (Some p, "eth1")]).1 = [Some p; Some p] /\
  (i <> j -> last_recv st !! i <> Some (PBytes p) ->
   last_recv st !! j <> Some (PBytes p) ->
   (trs st [(Some p, i); (Some p, j)]).1 = [Some p; Some p]).
Proof.
  intros Hp Hq Hqp.
  assert (Hcons : forall s, last_recv s !! i <> Some (PBytes p) ->
            (trs s [(Some p, i); (Some p, i)]).1 = [Some p; None]).
  { intros s Hs. cbn [trs]. rewrite (tr_pass s) by done.
    rewrite tr_drop by (done || apply set_recv_lookup). done. }
  assert (Hmid : forall s, exists r,
            (trs s [(Some p, i); (Some q, i); (Some p, i)]).1
            = [r; Some q; Some p] /\
            (last_recv s !! i <> Some (PBytes p) -> r = Some p)).
  { intros s. cbn [trs].
    pose proof (tr_remembers s p i Hp) as Hrem.
    destruct (tr s (Some p) i) as [r s1] eqn:E1. cbn [snd] in Hrem.
    rewrite (tr_pass s1 q) by (done || congruence).
    rewrite (tr_pass _ p)
      by (done || rewrite set_recv_lookup; congruence).
    exists r. split; [done|]. intros Hs.
    rewrite tr_pass in E1 by done. congruence. }
  assert (Hiso : forall s a b, a <> b ->
            last_recv s !! a <> Some (PBytes p) ->
            last_recv s !! b <> Some (PBytes p) ->
            (trs s [(Some p, a); (Some p, b)]).1 = [Some p; Some p]).
  { intros s a b Hab Ha Hb. cbn [trs]. rewrite (tr_pass s) by done.
    rewrite tr_pass by (done || by rewrite set_recv_lookup_ne). done. }
  split; [by apply Hcons|]. split; [by apply Hcons|].
  split; [destruct (Hmid st) as (r & Hr & _); eauto|].
  split; [destruct (Hmid __init__) as (r & Hr & Hr'); by rewrite Hr, Hr'|].
  split; [by apply Hiso|]. by apply Hiso.
Qed.

Lemma C1_duplicate_suppression_witness :
  (b_ "ping" <> [] /\ b_ "pong" <> [] /\ b_ "pong" <> b_ "ping") /\
  (trs __init__ [(Some (b_ "ping"), "eth0"); (Some (b_ "pong"), "eth0");
                 (Some (b_ "ping"), "eth0")]).1
  = [Some (b_ "ping"); Some (b_ "pong"); Some (b_ "ping")].
Proof.
  split; [done|].
  apply (C1_duplicate_suppression __init__ (b_ "ping") (b_ "pong")
           "eth0" "eth1"); done.
Defined.

End DuplicateFilterProofs.

(** ** LoopbackFilter *)

Module LoopbackFilterProofs.
Import LoopbackFilter.

Lemma dd_get_fst (m : gmap Z Z) (k : Z) :
  (dd_get 0 m k).1 = default 0 (m !! k).
Proof. unfold dd_get. by destruct (m !! k). Qed.

Lemma dd_get_snd (m : gmap Z Z) (k k' : Z) :
  default 0 ((dd_get 0 m k).2 !! k') = default 0 (m !! k').
Proof.
  unfold dd_get. destruct (m !! k) eqn:E; [done|]. cbn [snd].
  destruct (decide (k = k')) as [->|Hne].
  - by rewrite lookup_insert_eq, E.
  - by rewrite lookup_insert_ne.
Qed.

(** Stored values are those of the map before, or the default. *)
Lemma dd_get_stored (m : gmap Z Z) (k k' n : Z) :
  (dd_get 0 m k).2 !! k' = Some n -> m !! k' = Some n \/ n = 0.
Proof.
  unfold dd_get. destruct (m !! k) eqn:E; [by left|]. cbn [snd].
  destruct (decide (k = k')) as [->|Hne].
  - rewrite lookup_insert_eq. intros [= <-]. by right.
  - rewrite lookup_insert_ne by done. by left.
Qed.

Section WithHash.

Variable hash : bytes -> Z.

Abbreviation tr := (LoopbackFilter.tr hash).
Abbreviation tx := (LoopbackFilter.tx hash).
Abbreviation step := (LoopbackFilter.step hash).
Abbreviation run := (LoopbackFilter.run hash).
Abbreviation is_send_of := (LoopbackFilter.is_send_of hash).
Abbreviation is_echo_of := (LoopbackFilter.is_echo_of hash).
Abbreviation sends := (LoopbackFilter.sends hash).
Abbreviation echoes := (LoopbackFilter.echoes hash).

(** What a call does to the result, in terms of the counts alone. *)
Lemma tx_result (st : state) (pk : bytes) (i : interface) :
  pk <> [] -> (tx st (Some pk) i).1 = Some pk.
Proof.
  intros Hne. destruct pk as [|b pk]; [done|].
  unfold LoopbackFilter.tx; cbn [truthy]. by destruct (dd_get _ _ _).
Qed.

Lemma tx_count (st : state) (pk : bytes) (i : interface) (h : Z) :
  pk <> [] ->
  count (tx st (Some pk) i).2 h =
    if decide (h = hash pk) then count st h + 1 else count st h.
Proof.
  intros Hne. destruct pk as [|b pk]; [done|].
  unfold LoopbackFilter.tx, count; cbn [truthy].
  pose proof (dd_get_fst (sent_hashes st) (hash (b :: pk))) as H1.
  pose proof (dd_get_snd (sent_hashes st) (hash (b :: pk)) h) as H2.
  destruct (dd_get _ _ _) as [n m]; cbn [fst snd sent_hashes] in *.
  case_decide as Hh; subst.
  - by rewrite lookup_insert_eq.
  - by rewrite lookup_insert_ne.
Qed.

Lemma tr_result (st : state) (pk : bytes) (i : interface) :
  pk <> [] ->
  (tr st (Some pk) i).1 = if 0 <? count st (hash pk) then None else Some pk.
Proof.
  intros Hne. destruct pk as [|b pk]; [done|].
  unfold LoopbackFilter.tr, count; cbn [truthy].
  pose proof (dd_get_fst (sent_hashes st) (hash (b :: pk))) as H1.
  destruct (dd_get _ _ _) as [n m]; cbn [fst] in *. subst n.
  destruct (0 <? _); [|done]. by destruct (dd_get _ _ _).
Qed.

Lemma tr_count (st : state) (pk : bytes) (i : interface) (h : Z) :
  pk <> [] ->
  count (tr st (Some pk) i).2 h =
    if decide (h = hash pk /\ 0 < count st h) then count st h - 1
    else count st h.
Proof.
  intros Hne. destruct pk as [|b pk]; [done|].
  unfold LoopbackFilter.tr, count; cbn [truthy].
  pose proof (dd_get_fst (sent_hashes st) (hash (b :: pk))) as H1.
  pose proof (dd_get_snd (sent_hashes st) (hash (b :: pk))) as H2.
  destruct (dd_get _ _ _) as [n m]; cbn [fst snd] in *. subst n.
  destruct (0 <? _) eqn:Hpos.
  - apply Z.ltb_lt in Hpos.
    pose proof (dd_get_fst m (hash (b :: pk))) as H3.
    pose proof (dd_get_snd m (hash (b :: pk)) h) as H4.
    destruct (dd_get _ m _) as [n' m']; cbn [fst snd sent_hashes] in *.
    subst n'. rewrite H2. case_decide as Hh.
    + destruct Hh as [-> _]. by rewrite lookup_insert_eq.
    + destruct (decide (h = hash (b :: pk))) as [->|Hd].
      * exfalso. apply Hh. by split.
      * rewrite lookup_insert_ne by done. by rewrite H4, H2.
  - apply Z.ltb_ge in Hpos. cbn [sent_hashes]. rewrite H2.
    rewrite decide_False; [done|]. intros [-> ?]. lia.
Qed.

(** A falsy packet is dropped and leaves the state alone. *)
Lemma step_falsy (st : state) (c : call) :
  match c with Send p _ | Receive p _ => truthy p = false end ->
  step st c = (None, st).
Proof. destruct c as [[[|]|] ?|[[|]|] ?]; done. Qed.

Lemma run_cons (st : state) (c : call) (cs : list call) :
  run st (c :: cs) =
    ((step st c).1 :: (run (step st c).2 cs).1, (run (step st c).2 cs).2).
Proof.
  cbn [LoopbackFilter.run]. destruct (LoopbackFilter.step hash st c).
  by destruct (LoopbackFilter.run hash _ cs).
Qed.

Lemma count_init (h : Z) : count __init__ h = 0.
Proof. done. Qed.

Lemma step_count (st : state) (c : call) (h : Z) :
  count (step st c).2 h =
    count st h + (if is_send_of h c then 1 else 0)
               - (if is_echo_of h c (step st c).1 then 1 else 0).
Proof.
  destruct c as [[pk|] i|[pk|] i];
    cbn [LoopbackFilter.is_send_of LoopbackFilter.is_echo_of];
    try (cbn; lia).
  - destruct (decide (pk = [])) as [->|Hne]; [cbn; lia|].
    cbn [LoopbackFilter.step]. rewrite tx_count by done.
    assert (truthy (Some pk) = true) as -> by by destruct pk.
    cbn [andb]. case_decide; subst.
    + rewrite bool_decide_eq_true_2 by done. lia.
    + rewrite bool_decide_eq_false_2 by done. lia.
  - destruct (decide (pk = [])) as [->|Hne]; [cbn; lia|].
    cbn [LoopbackFilter.step]. rewrite tr_count, tr_result by done.
    assert (truthy (Some pk) = true) as -> by by destruct pk.
    cbn [andb]. destruct (0 <? count st (hash pk)) eqn:Hpos.
    + apply Z.ltb_lt in Hpos. case_decide as Hh.
      * destruct Hh as [-> _]. rewrite bool_decide_eq_true_2 by done. lia.
      * rewrite bool_decide_eq_false_2; [lia|].
        intros <-. by apply Hh.
    + apply Z.ltb_ge in Hpos. rewrite decide_False; [lia|].
      intros [-> ?]. lia.
Qed.

Lemma step_nonneg (st : state) (c : call) (h : Z) :
  0 <= count st h -> 0 <= count (step st c).2 h.
Proof.
  intros Hst. destruct c as [[pk|] i|[pk|] i]; try done.
  - destruct (decide (pk = [])) as [->|Hne]; [done|].
    cbn [LoopbackFilter.step]. rewrite tx_count by done. case_decide; lia.
  - destruct (decide (pk = [])) as [->|Hne]; [done|].
    cbn [LoopbackFilter.step]. rewrite tr_count by done. case_decide; lia.
Qed.

(** Only a receive lowers a count, by one, from a positive value, and it
    then drops the packet. *)
Lemma step_decrement (st : state) (c : call) (h : Z) :
  count (step st c).2 h < count st h ->
  exists pk i, c = Receive (Some pk) i /\ pk <> [] /\ hash pk = h /\
    0 < count st h /\ count (step st c).2 h = count st h - 1 /\
    (step st c).1 = None.
Proof.
  destruct c as [[pk|] i|[pk|] i]; try (cbn; lia).
  - destruct (decide (pk = [])) as [->|Hne]; [cbn; lia|].
    cbn [LoopbackFilter.step]. rewrite tx_count by done. case_decide; lia.
  - destruct (decide (pk = [])) as [->|Hne]; [cbn; lia|].
    cbn [LoopbackFilter.step]. rewrite tr_count, tr_result by done.
    case_decide as Hh; [|lia]. destruct Hh as [-> Hpos]. intros _.
    exists pk, i. apply Z.ltb_lt in Hpos as Hpos'. by rewrite Hpos'.
Qed.

Lemma run_count (cs : list call) (st : state) (h : Z) :
  count (run st cs).2 h =
    count st h + sends h cs - echoes h cs (run st cs).1.
Proof.
  revert st. induction cs as [|c cs IH]; intros st.
  - cbn. lia.
  - rewrite run_cons.
    cbn [fst snd LoopbackFilter.sends LoopbackFilter.echoes].
    rewrite IH, step_count. lia.
Qed.

Lemma run_nonneg (cs : list call) (st : state) (h : Z) :
  0 <= count st h -> 0 <= count (run st cs).2 h.
Proof.
  revert st. induction cs as [|c cs IH]; intros st Hst; [done|].
  rewrite run_cons. cbn [snd]. by apply IH, step_nonneg.
Qed.

End WithHash.

(** C2: on a fresh LoopbackFilter, for every non-empty packet [p] and any
    interfaces, send, send, receive, receive, receive of [p] returns
    [p], [p], absent, absent, [p]. *)
Theorem C2_credit_conservation
    (hash : bytes -> Z) (p : bytes) (i1 i2 i3 : interface) :
  p <> [] ->
  (run hash __init__
     [Send (Some p) i1; Send (Some p) i2;
      Receive (Some p) i3; Receive (Some p) i3; Receive (Some p) i3]).1
  = [Some p; Some p; None; None; Some p].
Proof.
  intros Hp. rewrite !run_cons. cbn [fst snd run step].
  set (s1 := (tx hash __init__ (Some p) i1).2).
  set (s2 := (tx hash s1 (Some p) i2).2).
  set (s3 := (tr hash s2 (Some p) i3).2).
  set (s4 := (tr hash s3 (Some p) i3).2).
  assert (H1 : count s1 (hash p) = 1).
  { unfold s1. rewrite tx_count by done. by rewrite decide_True. }
  assert (H2 : count s2 (hash p) = 2).
  { unfold s2. rewrite tx_count by done. rewrite decide_True by done. lia. }
  assert (H3 : count s3 (hash p) = 1).
  { unfold s3. rewrite tr_count by done.
    rewrite decide_True by (split; [done|lia]). lia. }
  assert (H4 : count s4 (hash p) = 0).
  { unfold s4. rewrite tr_count by done.
    rewrite decide_True by (split; [done|lia]). lia. }
  rewrite !tx_result, !tr_result by done.
  fold s1 s2 s3 s4. by rewrite H2, H3, H4.
Qed.

Lemma C2_credit_conservation_witness :
  b_ "hello" <> [] /\
  (run hash_poly __init__
     [Send (Some (b_ "hello")) "eth0"; Send (Some (b_ "hello")) "eth1";
      Receive (Some (b_ "hello")) "wlan0"; Receive (Some (b_ "hello")) "wlan0";
      Receive (Some (b_ "hello")) "wlan0"]).1
  = [Some (b_ "hello"); Some (b_ "hello"); None; None; Some (b_ "hello")].
Proof.
  split; [done|].
  apply (C2_credit_conservation hash_poly (b_ "hello") "eth0" "eth1" "wlan0").
  done.
Defined.

(** C8: from a fresh LoopbackFilter, after any sequence of calls every
    stored count is at least 0, and equals the matching sends so far minus
    the receives suppressed so far; a further call lowers a count only if
    it is a receive hashing to that bucket, the count is positive, it goes
    down by exactly 1 and the packet is dropped. *)
Theorem C8_counter_invariant
    (hash : bytes -> Z) (cs : list call) (h : Z) :
  let st := (run hash __init__ cs).2 in
  let rs := (run hash __init__ cs).1 in
  (forall n, sent_hashes st !! h = Some n -> 0 <= n) /\
  0 <= count st h /\
  count st h = sends hash h cs - echoes hash h cs rs /\
  echoes hash h cs rs <= sends hash h cs /\
  forall c, count (step hash st c).2 h < count st h ->
    exists pk i, c = Receive (Some pk) i /\ pk <> [] /\ hash pk = h /\
      0 < count st h /\ count (step hash st c).2 h = count st h - 1 /\
      (step hash st c).1 = None.
Proof.
  cbn zeta.
  pose proof (run_nonneg hash cs __init__ h) as Hnn.
  pose proof (run_count hash cs __init__ h) as Hc.
  rewrite count_init in Hnn, Hc. specialize (Hnn ltac:(lia)).
  split; [|split; [done|split; [lia|split; [lia|]]]].
  - intros n Hn. unfold count in Hnn. by rewrite Hn in Hnn.
  - intros c. apply step_decrement.
Qed.

Section TwoProcesses.

Variables h1 h2 : bytes -> Z.
Variable l : list bytes.
Hypothesis Hcoll : same_collisions h1 h2 l.

Abbreviation agree := (LoopbackFilter.agree h1 h2 l).

Lemma step_agree (s1 s2 : state) (c : call) :
  agree s1 s2 -> (forall p, p ∈ packets_of [c] -> p ∈ l) ->
  (step h1 s1 c).1 = (step h2 s2 c).1 /\
  agree (step h1 s1 c).2 (step h2 s2 c).2.
Proof.
  intros Hag Hin.
  destruct c as [[pk|] i|[pk|] i]; cbn [step]; try (cbn; by split).
  - destruct (decide (pk = [])) as [->|Hne]; [cbn; by split|].
    assert (Hpk : pk ∈ l).
    { apply Hin. destruct pk; [done|]. cbn. apply list_elem_of_here. }
    rewrite !tx_result by done. split; [done|]. intros p Hp.
    rewrite !tx_count by done. rewrite (Hag p Hp).
    destruct (Hcoll p pk Hp Hpk) as [H12 H21].
    repeat destruct (decide _); try done; tauto.
  - destruct (decide (pk = [])) as [->|Hne]; [cbn; by split|].
    assert (Hpk : pk ∈ l).
    { apply Hin. destruct pk; [done|]. cbn. apply list_elem_of_here. }
    rewrite !tr_result by done. rewrite (Hag pk Hpk). split; [done|].
    intros p Hp. rewrite !tr_count by done. rewrite (Hag p Hp).
    destruct (Hcoll p pk Hp Hpk) as [H12 H21].
    repeat destruct (decide _); try done; tauto.
Qed.

Lemma run_agree (cs : list call) (s1 s2 : state) :
  agree s1 s2 -> (forall p, p ∈ packets_of cs -> p ∈ l) ->
  (run h1 s1 cs).1 = (run h2 s2 cs).1.
Proof.
  revert s1 s2. induction cs as [|c cs IH]; intros s1 s2 Hag Hin; [done|].
  rewrite !run_cons. cbn [fst].
  assert (Hc : forall p, p ∈ packets_of [c] -> p ∈ l).
  { intros p Hp. apply Hin. change (c :: cs) with ([c] ++ cs).
    unfold packets_of. rewrite omap_app. apply elem_of_app. by left. }
  assert (Hcs : forall p, p ∈ packets_of cs -> p ∈ l).
  { intros p Hp. apply Hin. change (c :: cs) with ([c] ++ cs).
    unfold packets_of. rewrite omap_app. apply elem_of_app. by right. }
  destruct (step_agree s1 s2 c Hag Hc) as [Hr Hag'].
  f_equal; [done|]. by apply IH.
Qed.

End TwoProcesses.

End LoopbackFilterProofs.

(** ** The MD5 rendering *)

Module MD5Proofs.
Import MD5.

Lemma length_le_bytes (n : nat) (z : Z) : length (le_bytes n z) = n.
Proof.
  revert z. induction n as [|n IH]; intros z; cbn; [done|]. by rewrite IH.
Qed.

Lemma length_digest (msg : bytes) : length (digest msg) = 16%nat.
Proof.
  unfold digest. destruct (blocks _ _ _) as [[[a b] c] d].
  by rewrite !length_app, !length_le_bytes.
Qed.

Lemma length_hex (bs : bytes) : String.length (hex bs) = (2 * length bs)%nat.
Proof. induction bs as [|b bs IH]; cbn [hex String.length length]; lia. Qed.

Lemma hex_digits_lower (b : byte) :
  is_hex_lower (hex_digit (byte_to_Z b / 16)) = true /\
  is_hex_lower (hex_digit (byte_to_Z b mod 16)) = true.
Proof. destruct b; by vm_compute. Qed.

Lemma hex_lower (bs : bytes) :
  Forall (fun c => is_hex_lower c = true) (list_ascii_of_string (hex bs)).
Proof.
  induction bs as [|b bs IH]; cbn [hex list_ascii_of_string]; [constructor|].
  destruct (hex_digits_lower b). by repeat constructor.
Qed.

Lemma length_hexdigest (msg : bytes) : String.length (hexdigest msg) = 32%nat.
Proof. unfold hexdigest. by rewrite length_hex, length_digest. Qed.

Lemma hexdigest_lower (msg : bytes) :
  Forall (fun c => is_hex_lower c = true)
         (list_ascii_of_string (hexdigest msg)).
Proof. apply hex_lower. Qed.

(** Hex digits are ASCII: UTF-8 leaves them as they are. *)
Lemma utf8_char_hex (c : ascii) :
  is_hex_lower c = true -> utf8_char c = [byte_of_ascii c].
Proof.
  destruct c as [[] [] [] [] [] [] [] []]; vm_compute; congruence.
Qed.

Lemma utf8_encode_hex (s : string) :
  Forall (fun c => is_hex_lower c = true) (list_ascii_of_string s) ->
  utf8_encode s = b_ s.
Proof.
  unfold b_. induction s as [|c s IH]; [done|].
  cbn [list_ascii_of_string utf8_encode]. intros [Hc Hs]%Forall_cons.
  rewrite utf8_char_hex, IH by done. done.
Qed.

Lemma length_b_ (s : string) : length (b_ s) = String.length s.
Proof.
  unfold b_, list_byte_of_string. rewrite length_map.
  induction s as [|c s IH]; cbn; [done|]. by rewrite IH.
Qed.

End MD5Proofs.

(** ** UniqueFilter *)

Module UniqueFilterProofs.
Import MD5 UniqueFilter MD5Proofs.

Lemma fresh_id_length now st i : String.length (fresh_id now st i) = 32%nat.
Proof. apply length_hexdigest. Qed.

Lemma fresh_id_utf8 now st i :
  utf8_encode (fresh_id now st i) = b_ (fresh_id now st i).
Proof. apply utf8_encode_hex, hexdigest_lower. Qed.

Lemma tx_untagged now st p i :
  p <> [] -> b_ "HASH:" <> slice 0 5 p ->
  tx now st (Some p) i = (Some (tagged now st i p),
                          add (PStr (fresh_id now st i)) st).
Proof.
  intros Hne Hun. destruct p as [|b p]; [done|].
  unfold tx; cbn [truthy]. rewrite decide_False by done.
  fold (fresh_id now st i). by rewrite fresh_id_utf8.
Qed.

Lemma tx_tagged now st p i :
  p <> [] -> b_ "HASH:" = slice 0 5 p ->
  tx now st (Some p) i = (Some p, add (PBytes (slice 5 37 p)) st).
Proof.
  intros Hne Htag. destruct p as [|b p]; [done|].
  unfold tx; cbn [truthy]. by rewrite decide_True.
Qed.

Lemma tr_untagged st p i :
  p <> [] -> b_ "HASH:" <> slice 0 5 p -> tr st (Some p) i = (None, st).
Proof.
  intros Hne Hun. destruct p as [|b p]; [done|].
  unfold tr; cbn [truthy]. by rewrite decide_False.
Qed.

Lemma tr_tagged st p i :
  p <> [] -> b_ "HASH:" = slice 0 5 p ->
  tr st (Some p) i =
    if decide (PBytes (slice 5 37 p) ∈ seen st) then (None, st)
    else (Some p, add (PBytes (slice 5 37 p)) st).
Proof.
  intros Hne Htag. destruct p as [|b p]; [done|].
  unfold tr; cbn [truthy]. by rewrite decide_True.
Qed.

(** The shape of a tagged packet as the slices of [tr] see it. *)
Lemma tagged_marker now st i p : b_ "HASH:" = slice 0 5 (tagged now st i p).
Proof. done. Qed.

Lemma tagged_uuid now st i p :
  slice 5 37 (tagged now st i p) = b_ (fresh_id now st i).
Proof.
  unfold slice, tagged. rewrite drop_app_length' by done.
  change (37 - 5)%nat with 32%nat.
  rewrite take_app_length'; [done|].
  by rewrite length_b_, fresh_id_length.
Qed.

Lemma tagged_nonempty now st i p : tagged now st i p <> [].
Proof. done. Qed.

Lemma elem_of_seen_add v w st :
  v ∈ seen (add w st) <-> v = w \/ v ∈ seen st.
Proof. unfold add; cbn [seen]. set_solver. Qed.

(** C3 at the code: [tx] records the identifier as text ([str]), [tr]
    looks up the slice of the packet ([bytes]); the two never compare equal,
    so the packet a fresh instance has just tagged comes back through its
    own [tr] instead of being dropped.  The same holds on any instance that
    has not seen the identifier as [bytes].  On another instance that has
    not seen it the tagged packet passes once and is then dropped. *)
Theorem C3_own_packet_not_suppressed
    (now : string) (st other : state) (p : bytes) (i i' : interface) :
  p <> [] -> b_ "HASH:" <> slice 0 5 p ->
  PBytes (b_ (fresh_id now st i)) ∉ seen st ->
  PBytes (b_ (fresh_id now st i)) ∉ seen other ->
  let t := tagged now st i p in
  let st1 := (tx now st (Some p) i).2 in
  let o1 := (tr other (Some t) i').2 in
  (tx now st (Some p) i).1 = Some t /\
  PStr (fresh_id now st i) ∈ seen st1 /\
  (tr st1 (Some t) i').1 = Some t /\
  (tr other (Some t) i').1 = Some t /\
  (tr o1 (Some t) i').1 = None.
Proof.
  intros Hne Hun Hst Hother. cbn zeta.
  rewrite tx_untagged by done. cbn [fst snd].
  rewrite !tr_tagged by (apply tagged_nonempty || apply tagged_marker).
  rewrite tagged_uuid.
  split; [done|]. split; [apply elem_of_seen_add; by left|].
  split; [|split].
  - rewrite decide_False; [done|].
    intros [?|?]%elem_of_seen_add; done.
  - by rewrite decide_False.
  - rewrite (decide_False (P := _ ∈ seen other)) by done. cbn [snd].
    rewrite decide_True; [done|]. apply elem_of_seen_add. by left.
Qed.

Lemma C3_own_packet_not_suppressed_witness :
  let st := __init__ 12345 in
  let t := b_ "HASH:48a9dd892f1afc95f0a24c338a8078e1; x" in
  (tx "1.5" st (Some (b_ "x")) "eth0").1 = Some t /\
  (tr (tx "1.5" st (Some (b_ "x")) "eth0").2 (Some t) "eth0").1 = Some t.
Proof.
  cbn zeta.
  destruct (C3_own_packet_not_suppressed "1.5" (__init__ 12345)
              (__init__ 54321) (b_ "x") "eth0" "eth0")
    as (H1 & _ & H2 & _); [done|done|set_solver|set_solver|].
  split; [exact H1|exact H2].
Defined.

(** C4: for every non-empty packet [p] that does not begin with the
    marker, [tx] returns exactly [HASH:], a 32-character lowercase-hex
    identifier, [; ] and then [p]; the identifier is the hex rendering of
    the 16-byte (128-bit) MD5 digest of the node id, the interface as text
    and the timestamp text, concatenated in that order. *)
Theorem C4_wire_format
    (now : string) (st : state) (p : bytes) (i : interface) :
  p <> [] -> b_ "HASH:" <> slice 0 5 p ->
  let input := utf8_encode (our_id st +:+ i +:+ now) in
  let id := MD5.hex (MD5.digest input) in
  (tx now st (Some p) i).1 = Some (b_ "HASH:" ++ b_ id ++ b_ "; " ++ p) /\
  length (MD5.digest input) = 16%nat /\
  String.length id = 32%nat /\
  Forall (fun c => is_hex_lower c = true) (list_ascii_of_string id) /\
  slice 0 5 (b_ "HASH:" ++ b_ id ++ b_ "; " ++ p) = b_ "HASH:" /\
  slice 5 37 (b_ "HASH:" ++ b_ id ++ b_ "; " ++ p) = b_ id /\
  slice 37 39 (b_ "HASH:" ++ b_ id ++ b_ "; " ++ p) = b_ "; " /\
  drop 39 (b_ "HASH:" ++ b_ id ++ b_ "; " ++ p) = p.
Proof.
  intros Hne Hun. cbn zeta.
  rewrite tx_untagged by done. cbn [fst].
  change (MD5.hex (MD5.digest (utf8_encode (our_id st +:+ i +:+ now))))
    with (fresh_id now st i).
  pose proof (fresh_id_length now st i) as Hlen.
  assert (Hb : length (b_ (fresh_id now st i)) = 32%nat)
    by by rewrite length_b_.
  split; [done|]. split; [apply MD5Proofs.length_digest|].
  split; [done|]. split; [apply hexdigest_lower|].
  split; [done|]. split; [apply tagged_uuid|].
  split.
  - unfold slice. change (39 - 37)%nat with 2%nat.
    rewrite (app_assoc (b_ "HASH:")).
    rewrite drop_app_length' by (rewrite length_app, Hb; done).
    by rewrite take_app_length'.
  - rewrite (app_assoc (b_ "HASH:")), (app_assoc (_ ++ _)).
    rewrite drop_app_length'; [done|].
    rewrite !length_app, Hb. done.
Qed.

Lemma C4_wire_format_witness :
  (tx "1.5" (__init__ 12345) (Some (b_ "x")) "eth0").1
  = Some (b_ "HASH:48a9dd892f1afc95f0a24c338a8078e1; x").
Proof.
  destruct (C4_wire_format "1.5" (__init__ 12345) (b_ "x") "eth0")
    as (H & _); [done|done|].
  exact H.
Defined.

(** C6: for every non-empty packet [p] that does not begin with [HASH:],
    [tr] returns absent and leaves the seen set as it was. *)
Theorem C6_untagged_receive_dropped (st : state) (p : bytes) (i : interface) :
  p <> [] -> b_ "HASH:" <> slice 0 5 p ->
  (tr st (Some p) i).1 = None /\
  seen (tr st (Some p) i).2 = seen st /\
  (tr st (Some p) i).2 = st.
Proof. intros Hne Hun. by rewrite tr_untagged. Qed.

Lemma C6_untagged_receive_dropped_witness :
  (tr (__init__ 12345) (Some (b_ "hello world")) "eth0").1 = None /\
  seen (tr (__init__ 12345) (Some (b_ "hello world")) "eth0").2 = ∅.
Proof.
  destruct (C6_untagged_receive_dropped (__init__ 12345)
              (b_ "hello world") "eth0") as (H1 & H2 & _); [done|done|].
  split; [exact H1|exact H2].
Defined.

(** C7: for every instance, every packet (absent, tagged or untagged) and
    every interface, the seen set after [tr] and after [tx] contains the
    seen set before; the node id is never changed either. *)
Theorem C7_seen_monotone
    (now : string) (st : state) (p : packet) (i : interface) :
  seen st ⊆ seen (tr st p i).2 /\
  seen st ⊆ seen (tx now st p i).2 /\
  our_id (tr st p i).2 = our_id st /\
  our_id (tx now st p i).2 = our_id st.
Proof.
  destruct p as [[|b p]|]; [done| |done].
  unfold tr, tx; cbn [truthy].
  destruct (decide (b_ "HASH:" = _)); [|cbn; set_solver].
  destruct (decide (_ ∈ seen st)); cbn; set_solver.
Qed.

End UniqueFilterProofs.

(** ** StringFilter *)

Module StringFilterProofs.
Import StringFilter.

Lemma starts_with_spec (pat l : bytes) :
  starts_with pat l = true <-> exists l2, l = pat ++ l2.
Proof.
  revert l. induction pat as [|a pat IH]; intros l; cbn [starts_with].
  - split; [intros _; by exists l|done].
  - destruct l as [|b l]; [split; [done|by intros [? ?]]|].
    destruct (decide (a = b)) as [->|Hab].
    + rewrite IH. split; intros [l2 Hl].
      * exists l2. by rewrite Hl.
      * exists l2. by injection Hl.
    + split; [done|]. intros [l2 Hl]. injection Hl. congruence.
Qed.

Lemma find_spec (pat l : bytes) : find pat l = true <-> substring pat l.
Proof.
  induction l as [|b l IH]; cbn [find]; rewrite orb_true_iff.
  - rewrite starts_with_spec. split.
    + intros [[l2 Hl]|?]; [|done]. by exists [], l2.
    + intros (l1 & l2 & Hl). left.
      destruct l1; [|done]. destruct pat; [|done]. by exists [].
  - rewrite starts_with_spec, IH. split.
    + intros [[l2 Hl]|(l1 & l2 & Hl)].
      * by exists [], l2.
      * exists (b :: l1), l2. by rewrite Hl.
    + intros ([|c l1] & l2 & Hl).
      * left. by exists l2.
      * right. exists l1, l2. by injection Hl.
Qed.

Lemma find_false (pat l : bytes) : find pat l = false <-> ~ substring pat l.
Proof. rewrite <- find_spec. by destruct (find pat l). Qed.

Lemma tr_bytes (pat p : bytes) (inv : bool) (i : interface) :
  p <> [] ->
  tr (match_ (PBytes pat) inv) (Some p) i =
    Return (if xorb inv (find pat p) then Some p else None).
Proof.
  intros Hne. destruct p as [|b p]; [done|].
  unfold tr; cbn [truthy match_ pattern inverse contains bind].
  by destruct inv, (find pat (b :: p)).
Qed.

(** C5, as stated: the pattern ["foo"] is text and the packet is [bytes],
    so the containment test raises instead of passing or dropping; and the
    empty pattern is a substring of the empty packet, which is dropped. *)
Lemma C5_counterexample :
  tr (match_ (PStr "foo") false) (Some (b_ "xfoox")) "eth0"
    = Raise TypeError /\
  tr (dontmatch (PStr "foo")) (Some (b_ "xfoox")) "eth0"
    = Raise TypeError /\
  (substring [] [] /\
   tr (match_ (PBytes []) false) (Some []) "eth0" = Return None).
Proof.
  split; [done|]. split; [done|]. split; [by exists [], []|done].
Qed.

(** C5 (amended): with the pattern given as bytes, [match(b"foo")] passes
    [b"xfoox"] and [dontmatch(b"foo")] drops it; both return absent on
    absent input, whatever the pattern; for every non-empty packet and
    bytes pattern, [tr] returns (never raises) the packet exactly when the
    pattern is a substring of it if [inverse] is false, and exactly when it
    is not if [inverse] is true, and absent otherwise. *)
Theorem C5_match_invert (pat p : bytes) (i : interface) :
  p <> [] ->
  tr (match_ (PBytes (b_ "foo")) false) (Some (b_ "xfoox")) i
    = Return (Some (b_ "xfoox")) /\
  tr (dontmatch (PBytes (b_ "foo"))) (Some (b_ "xfoox")) i = Return None /\
  (forall pattern, tr (match_ pattern false) None i = Return None /\
                   tr (dontmatch pattern) None i = Return None) /\
  (substring pat p ->
   tr (match_ (PBytes pat) false) (Some p) i = Return (Some p)) /\
  (~ substring pat p ->
   tr (match_ (PBytes pat) false) (Some p) i = Return None) /\
  (substring pat p ->
   tr (dontmatch (PBytes pat)) (Some p) i = Return None) /\
  (~ substring pat p ->
   tr (dontmatch (PBytes pat)) (Some p) i = Return (Some p)).
Proof.
  intros Hne. split; [done|]. split; [done|]. split; [done|].
  unfold dontmatch. rewrite !tr_bytes by done. cbn [xorb].
  repeat split.
  - intros Hs%find_spec. by rewrite Hs.
  - intros Hs%find_false. by rewrite Hs.
  - intros Hs%find_spec. by rewrite Hs.
  - intros Hs%find_false. by rewrite Hs.
Qed.

Lemma C5_match_invert_witness :
  tr (match_ (PBytes (b_ "bar")) false) (Some (b_ "xfoox")) "eth0"
    = Return None /\
  tr (dontmatch (PBytes (b_ "oox"))) (Some (b_ "xfoox")) "eth0"
    = Return None.
Proof.
  split.
  - apply (C5_match_invert (b_ "bar") (b_ "xfoox") "eth0"); [done|].
    by apply find_false.
  - apply (C5_match_invert (b_ "oox") (b_ "xfoox") "eth0"); [done|].
    by apply find_spec.
Defined.

End StringFilterProofs.

(** ** The empty packet *)

(** C10: the empty packet [b""] is dropped like an absent one by every
    stateful filter method and by [StringFilter.tr], for every interface,
    state and pattern, and no state changes. *)
Theorem C10_empty_packet_dropped
    (i : interface) (now : string) (hash : bytes -> Z)
    (ds : DuplicateFilter.state) (ls : LoopbackFilter.state)
    (us : UniqueFilter.state) (sf : StringFilter.cls) :
  truthy (Some []) = truthy None /\
  DuplicateFilter.tr ds (Some []) i = (None, ds) /\
  DuplicateFilter.tx ds (Some []) i = (None, ds) /\
  LoopbackFilter.tr hash ls (Some []) i = (None, ls) /\
  LoopbackFilter.tx hash ls (Some []) i = (None, ls) /\
  UniqueFilter.tr us (Some []) i = (None, us) /\
  UniqueFilter.tx now us (Some []) i = (None, us) /\
  StringFilter.tr sf (Some []) i = Return None /\
  DuplicateFilter.tr ds None i = (None, ds) /\
  DuplicateFilter.tx ds None i = (None, ds) /\
  LoopbackFilter.tr hash ls None i = (None, ls) /\
  LoopbackFilter.tx hash ls None i = (None, ls) /\
  UniqueFilter.tr us None i = (None, us) /\
  UniqueFilter.tx now us None i = (None, us) /\
  StringFilter.tr sf None i = Return None.
Proof. repeat split. Qed.

(** * Further properties of the filters *)

(** ** DuplicateFilter: both directions and whole streams *)

Module DuplicateFilterStreams.
Import DuplicateFilter DuplicateFilterProofs.

Lemma run_step (st : state) (c : call) (cs : list call) :
  run st (c :: cs) =
    ((step st c).1 :: (run (step st c).2 cs).1, (run (step st c).2 cs).2).
Proof. cbn [run]. destruct (step st c). by destruct (run _ cs). Qed.

Lemma tx_swap (st : state) (p : packet) (i : interface) :
  tx st p i = ((tr (swap st) p i).1, swap (tr (swap st) p i).2).
Proof.
  destruct st as [ls lr]. destruct p as [[|b pk]|]; [done| |done].
  unfold tx, tr, swap; cbn [truthy last_sent last_recv].
  destruct (dd_get (PStr "") ls i) as [v m].
  by destruct (decide (PBytes (b :: pk) = v)).
Qed.

Lemma swap_swap (st : state) : swap (swap st) = st.
Proof. by destruct st. Qed.

Lemma step_swap (st : state) (c : call) :
  step (swap st) (flip c) = ((step st c).1, swap (step st c).2).
Proof.
  destruct c as [p i|p i]; cbn [flip step].
  - rewrite (tx_swap st). cbn [fst snd]. rewrite swap_swap.
    by destruct (tr (swap st) p i).
  - rewrite (tx_swap (swap st)). by rewrite swap_swap.
Qed.

(** X1: [tx] is [tr] with the two maps exchanged: a call sequence with
    every send and receive exchanged, run on the state with [last_sent] and
    [last_recv] exchanged, returns the same results and ends in the
    exchanged state. *)
Theorem X1_directions_symmetric (st : state) (cs : list call) :
  run (swap st) (map flip cs) = ((run st cs).1, swap (run st cs).2).
Proof.
  revert st. induction cs as [|c cs IH]; intros st; [done|].
  cbn [map]. rewrite !run_step, step_swap. cbn [fst snd]. by rewrite IH.
Qed.

Lemma tx_last_recv (st : state) (p : packet) (i : interface) :
  last_recv (tx st p i).2 = last_recv st.
Proof.
  destruct p as [[|b pk]|]; [done| |done].
  unfold tx; cbn [truthy]. destruct (dd_get _ _ _) as [v m].
  by destruct (decide _).
Qed.

Lemma last_packet_set_recv (st : state) (i : interface) (pk : bytes) :
  last_packet (last_recv (set_recv st i pk)) i = Some pk.
Proof. unfold last_packet. by rewrite set_recv_lookup. Qed.

Lemma last_packet_set_recv_ne (st : state) (i j : interface) (pk : bytes) :
  i <> j ->
  last_packet (last_recv (set_recv st i pk)) j = last_packet (last_recv st) j.
Proof. intros Hij. unfold last_packet. by rewrite set_recv_lookup_ne. Qed.

Lemma last_packet_Some (m : gmap string pyval) (i : interface) (pk : bytes) :
  last_packet m i = Some pk <-> m !! i = Some (PBytes pk).
Proof.
  unfold last_packet. destruct (m !! i) as [[s|b]|]; split; congruence.
Qed.

Lemma passed_offered (cs : list call) (st : state) (i : interface) :
  passed i cs (run st cs).1 =
    dedup_from (last_packet (last_recv st) i) (offered i cs).
Proof.
  revert st. induction cs as [|c cs IH]; intros st; [done|].
  rewrite run_step. cbn [fst passed offered]. rewrite IH. clear IH.
  destruct c as [p j|[pk|] j]; cbn [step offered1 passed1].
  - rewrite tx_last_recv. by destruct (tx st p j).1.
  - destruct (decide (pk = [])) as [->|Hne]; [done|].
    assert (truthy (Some pk) = true) as -> by by destruct pk.
    rewrite tr_nonempty by done. cbn [andb].
    destruct (decide (last_recv st !! j = Some (PBytes pk))) as [Hl|Hl];
      cbn [fst snd]; case_bool_decide as Hji; subst; cbn [app dedup_from].
    + rewrite decide_True; [done|]. by apply last_packet_Some.
    + done.
    + rewrite decide_False by (by rewrite last_packet_Some).
      by rewrite last_packet_set_recv.
    + by rewrite last_packet_set_recv_ne.
  - done.
Qed.

Lemma dedup_from_adjacent (ps : list bytes) (prev : option bytes) :
  adjacent_distinct (dedup_from prev ps) /\
  forall x, head (dedup_from prev ps) = Some x -> prev <> Some x.
Proof.
  revert prev. induction ps as [|p ps IH]; intros prev; [done|].
  cbn [dedup_from]. destruct (decide (prev = Some p)) as [Hp|Hp].
  - apply IH.
  - destruct (IH (Some p)) as [Hadj Hhead]. split.
    + cbn [adjacent_distinct].
      destruct (dedup_from (Some p) ps) as [|y l] eqn:E; [done|].
      split; [|done]. intros ->. by apply (Hhead y).
    + intros x [= <-]. done.
Qed.

(** X2: in any mix of sends and receives on any interfaces, the packets
    [tr] passes on interface [i] are exactly the non-empty packets offered
    to [tr] on [i] with immediate repeats removed (starting from the packet
    the state remembers for [i]); sends and other interfaces do not
    interfere, and no two packets passed in a row on [i] are equal.  On a
    fresh instance nothing is remembered. *)
Theorem X2_receive_stream_deduplicated
    (st : state) (cs : list call) (i : interface) :
  passed i cs (run st cs).1 =
    dedup_from (last_packet (last_recv st) i) (offered i cs) /\
  passed i cs (run __init__ cs).1 = dedup_from None (offered i cs) /\
  adjacent_distinct (passed i cs (run st cs).1).
Proof.
  split; [apply passed_offered|]. split; [apply passed_offered|].
  rewrite passed_offered. apply dedup_from_adjacent.
Qed.

Lemma holds_packets_insert (m : gmap string pyval) (i : interface)
    (pk : bytes) :
  pk <> [] -> holds_packets m -> holds_packets (<[i := PBytes pk]> m).
Proof.
  intros Hne Hm j v. destruct (decide (i = j)) as [->|Hij].
  - rewrite lookup_insert_eq. intros [= <-]. by exists pk.
  - rewrite lookup_insert_ne by done. apply Hm.
Qed.

Lemma tr_holds_packets (st : state) (p : packet) (i : interface) :
  holds_packets (last_recv st) -> holds_packets (last_recv (tr st p i).2).
Proof.
  intros Hst. destruct p as [pk|]; [|done].
  destruct (decide (pk = [])) as [->|Hne]; [done|].
  rewrite tr_nonempty by done. case_decide; [done|].
  by apply holds_packets_insert.
Qed.

Lemma step_holds_packets (st : state) (c : call) :
  holds_packets (last_recv st) /\ holds_packets (last_sent st) ->
  holds_packets (last_recv (step st c).2) /\
  holds_packets (last_sent (step st c).2).
Proof.
  intros [Hr Hs]. destruct c as [p i|p i]; cbn [step].
  - rewrite tx_swap. cbn [snd swap last_recv last_sent]. split.
    + pose proof (tx_last_recv st p i) as H. rewrite tx_swap in H.
      cbn [snd swap last_recv] in H. by rewrite H.
    + by apply tr_holds_packets.
  - split; [by apply tr_holds_packets|].
    destruct p as [[|b pk]|]; [done| |done].
    unfold tr; cbn [truthy]. destruct (dd_get _ _ _) as [v m].
    by destruct (decide _).
Qed.

(** X3: after any sequence of calls on a fresh instance both maps hold
    non-empty [bytes] packets only: the text default that a read of a
    missing key stores is always overwritten in the same call, and an
    empty packet is never remembered. *)
Theorem X3_only_packets_stored (cs : list call) :
  holds_packets (last_recv (run __init__ cs).2) /\
  holds_packets (last_sent (run __init__ cs).2).
Proof.
  assert (H0 : holds_packets (last_recv __init__) /\
               holds_packets (last_sent __init__)) by (split; by intros ??).
  revert H0. generalize __init__.
  induction cs as [|c cs IH]; intros st Hst; [done|].
  rewrite run_step. cbn [snd]. by apply IH, step_holds_packets.
Qed.

End DuplicateFilterStreams.

(** ** LoopbackFilter: credits, collisions and keys *)

Module LoopbackFilterCredits.
Import LoopbackFilter LoopbackFilterProofs.

Section WithHash.

Variable hash : bytes -> Z.

Lemma run_app (st : state) (cs1 cs2 : list call) :
  run hash st (cs1 ++ cs2) =
    ((run hash st cs1).1 ++ (run hash (run hash st cs1).2 cs2).1,
     (run hash (run hash st cs1).2 cs2).2).
Proof.
  revert st. induction cs1 as [|c cs1 IH]; intros st.
  - cbn. by destruct (run hash st cs2).
  - rewrite <- app_comm_cons, !run_cons, IH. done.
Qed.

Lemma run_sends (n : nat) (st : state) (p : bytes) (i : interface) :
  p <> [] ->
  (run hash st (replicate n (Send (Some p) i))).1 = replicate n (Some p) /\
  count (run hash st (replicate n (Send (Some p) i))).2 (hash p)
    = count st (hash p) + Z.of_nat n.
Proof.
  intros Hne. revert st. induction n as [|n IH]; intros st.
  - cbn. split; [done|lia].
  - cbn [replicate]. rewrite run_cons. cbn [fst snd step].
    destruct (IH (tx hash st (Some p) i).2) as [-> ->].
    rewrite tx_result, tx_count by done. rewrite decide_True by done.
    split; [done|lia].
Qed.

Lemma run_receives (m k : nat) (st : state) (p : bytes) (j : interface) :
  p <> [] -> count st (hash p) = Z.of_nat k ->
  (run hash st (replicate m (Receive (Some p) j))).1
    = replicate (k `min` m)%nat None ++ replicate (m - k) (Some p).
Proof.
  intros Hne. revert k st. induction m as [|m IH]; intros k st Hk.
  - by rewrite Nat.min_0_r.
  - cbn [replicate]. rewrite run_cons. cbn [fst snd step].
    rewrite tr_result by done. rewrite Hk. destruct k as [|k].
    + cbn [Z.of_nat Z.ltb Z.compare]. rewrite (IH 0%nat).
      * cbn [Nat.min replicate app]. by rewrite !Nat.sub_0_r.
      * rewrite tr_count by done. rewrite decide_False; [done|].
        intros [_ ?]. lia.
    + assert ((0 <? Z.of_nat (S k)) = true) as -> by (apply Z.ltb_lt; lia).
      rewrite (IH k); [done|].
      rewrite tr_count by done. rewrite decide_True by (split; [done|lia]).
      lia.
Qed.

End WithHash.

(** X4: on a fresh instance, [n] sends of a non-empty packet [p] followed
    by [m] receives of it (any interfaces) return [p] for every send,
    absent for the first [min n m] receives and [p] for the remaining
    receives: each send buys exactly one suppressed receive. *)
Theorem X4_one_credit_per_send
    (hash : bytes -> Z) (p : bytes) (i j : interface) (n m : nat) :
  p <> [] ->
  (run hash __init__
     (replicate n (Send (Some p) i) ++ replicate m (Receive (Some p) j))).1
  = replicate n (Some p) ++ replicate (n `min` m)%nat None
      ++ replicate (m - n) (Some p).
Proof.
  intros Hne. rewrite run_app. cbn [fst].
  destruct (run_sends hash n __init__ p i Hne) as [-> Hc].
  f_equal. apply run_receives; [done|]. rewrite Hc, count_init. lia.
Qed.

Lemma X4_one_credit_per_send_witness :
  b_ "hi" <> [] /\
  (run hash_poly __init__
     (replicate 2 (Send (Some (b_ "hi")) "eth0")
      ++ replicate 4 (Receive (Some (b_ "hi")) "eth1"))).1
  = [Some (b_ "hi"); Some (b_ "hi"); None; None;
     Some (b_ "hi"); Some (b_ "hi")].
Proof.
  split; [done|].
  apply (X4_one_credit_per_send hash_poly (b_ "hi") "eth0" "eth1" 2 4).
  done.
Defined.

(** X5: suppression is keyed by the hash alone: after any history on a
    fresh instance, a send of [p] followed by a receive of any non-empty
    packet [q] with the same hash drops [q], also when [q] differs from
    [p]. *)
Theorem X5_same_hash_suppressed
    (hash : bytes -> Z) (cs : list call) (p q : bytes) (i j : interface) :
  p <> [] -> q <> [] -> hash q = hash p ->
  let st := (run hash __init__ cs).2 in
  (tr hash (tx hash st (Some p) i).2 (Some q) j).1 = None.
Proof.
  intros Hp Hq Hh. cbn zeta.
  rewrite tr_result by done. rewrite Hh, tx_count by done.
  rewrite decide_True by done.
  pose proof (run_nonneg hash cs __init__ (hash p)) as Hnn.
  rewrite count_init in Hnn. specialize (Hnn ltac:(lia)).
  assert ((0 <? count (run hash __init__ cs).2 (hash p) + 1) = true) as ->
    by (apply Z.ltb_lt; lia).
  done.
Qed.

Lemma X5_same_hash_suppressed_witness :
  (b_ "ab" <> [] /\ b_ "ba" <> [] /\
   hash_sum (b_ "ba") = hash_sum (b_ "ab")) /\
  (tr hash_sum (tx hash_sum __init__ (Some (b_ "ab")) "eth0").2
      (Some (b_ "ba")) "eth0").1 = None.
Proof.
  split; [done|].
  apply (X5_same_hash_suppressed hash_sum [] (b_ "ab") (b_ "ba")
           "eth0" "eth0"); done.
Defined.

Lemma union_absorb (k : Z) (X : gset Z) : {[k]} ∪ ({[k]} ∪ X) = {[k]} ∪ X.
Proof. by rewrite (assoc_L (∪)), union_idemp_L. Qed.

Lemma dd_get_dom (m : gmap Z Z) (k : Z) :
  dom (dd_get 0 m k).2 = {[k]} ∪ dom m.
Proof.
  unfold dd_get. destruct (m !! k) eqn:E; cbn [snd].
  - apply elem_of_dom_2 in E. apply set_eq. intros x.
    rewrite elem_of_union, elem_of_singleton. split; [by right|].
    by intros [->|?].
  - by rewrite dom_insert_L.
Qed.

Lemma tr_dom (hash : bytes -> Z) (st : state) (p : bytes) (i : interface) :
  p <> [] ->
  dom (sent_hashes (tr hash st (Some p) i).2)
    = {[hash p]} ∪ dom (sent_hashes st).
Proof.
  intros Hne. destruct p as [|b p]; [done|].
  unfold LoopbackFilter.tr; cbn [truthy].
  pose proof (dd_get_dom (sent_hashes st) (hash (b :: p))) as H1.
  destruct (dd_get 0 (sent_hashes st) _) as [n m]; cbn [snd] in H1.
  destruct (0 <? n); [|done].
  pose proof (dd_get_dom m (hash (b :: p))) as H2.
  destruct (dd_get 0 m _) as [n' m']; cbn [snd sent_hashes] in *.
  by rewrite dom_insert_L, H2, H1, !union_absorb.
Qed.

Lemma tx_dom (hash : bytes -> Z) (st : state) (p : bytes) (i : interface) :
  p <> [] ->
  dom (sent_hashes (tx hash st (Some p) i).2)
    = {[hash p]} ∪ dom (sent_hashes st).
Proof.
  intros Hne. destruct p as [|b p]; [done|].
  unfold LoopbackFilter.tx; cbn [truthy].
  pose proof (dd_get_dom (sent_hashes st) (hash (b :: p))) as H1.
  destruct (dd_get 0 (sent_hashes st) _) as [n m]; cbn [snd sent_hashes] in *.
  by rewrite dom_insert_L, H1, union_absorb.
Qed.

(** X6: every [tr] and [tx] of a non-empty packet leaves the packet's hash
    as a key of [sent_hashes] and removes no key, also when the receive
    passes the packet (the read of the missing key stores a zero); a
    receive that passes its packet changes no count. *)
Theorem X6_keys_only_grow
    (hash : bytes -> Z) (st : state) (p : bytes) (i : interface) (h : Z) :
  p <> [] ->
  dom (sent_hashes (tr hash st (Some p) i).2)
    = {[hash p]} ∪ dom (sent_hashes st) /\
  dom (sent_hashes (tx hash st (Some p) i).2)
    = {[hash p]} ∪ dom (sent_hashes st) /\
  ((tr hash st (Some p) i).1 = Some p ->
   count (tr hash st (Some p) i).2 h = count st h).
Proof.
  intros Hne. split; [by apply tr_dom|]. split; [by apply tx_dom|].
  rewrite tr_result, tr_count by done.
  destruct (0 <? count st (hash p)) eqn:Hpos; [done|]. intros _.
  apply Z.ltb_ge in Hpos. rewrite decide_False; [done|].
  intros [-> ?]. lia.
Qed.

Lemma X6_keys_only_grow_witness :
  b_ "hi" <> [] /\
  dom (sent_hashes (tr hash_sum __init__ (Some (b_ "hi")) "eth0").2)
    = {[hash_sum (b_ "hi")]} ∪ dom (sent_hashes __init__).
Proof.
  split; [done|].
  apply (X6_keys_only_grow hash_sum __init__ (b_ "hi") "eth0" 0). done.
Defined.

(** X15: the results of a call sequence depend on the hash function only
    through which of the sequence's non-empty packets it sends to the same
    bucket: two hash functions that collide on the same pairs of those
    packets give the same results from a fresh instance. *)
Theorem X15_results_depend_on_collisions_only
    (h1 h2 : bytes -> Z) (cs : list call) :
  same_collisions h1 h2 (packets_of cs) ->
  (run h1 __init__ cs).1 = (run h2 __init__ cs).1.
Proof.
  intros Hcoll. by apply (run_agree h1 h2 (packets_of cs) Hcoll).
Qed.

Lemma X15_results_depend_on_collisions_only_witness :
  let cs := [Send (Some (b_ "ab")) "eth0"; Receive (Some (b_ "cd")) "eth1";
             Receive (Some (b_ "ab")) "eth1"; Receive (Some (b_ "ab")) "eth1"]
  in
  same_collisions hash_sum hash_poly (packets_of cs) /\
  (run hash_sum __init__ cs).1 = (run hash_poly __init__ cs).1.
Proof.
  cbn zeta.
  assert (Hcoll : same_collisions hash_sum hash_poly
            [b_ "ab"; b_ "cd"; b_ "ab"; b_ "ab"]).
  { intros p q Hp Hq.
    repeat (apply elem_of_cons in Hp as [->|Hp]);
      try (by apply not_elem_of_nil in Hp);
      repeat (apply elem_of_cons in Hq as [->|Hq]);
      try (by apply not_elem_of_nil in Hq);
      split; intros Heq; try reflexivity;
      vm_compute in Heq; discriminate Heq. }
  split; [exact Hcoll|].
  apply (X15_results_depend_on_collisions_only hash_sum hash_poly).
  exact Hcoll.
Defined.

End LoopbackFilterCredits.

(** ** UniqueFilter: delivery over the life of an instance *)

Module UniqueFilterDelivery.
Import MD5 UniqueFilter MD5Proofs UniqueFilterProofs.

Lemma run_unfold (st : state) (c : call) (cs : list call) :
  run st (c :: cs) =
    ((step st c).1 :: (run (step st c).2 cs).1, (run (step st c).2 cs).2).
Proof. cbn [run]. destruct (step st c). by destruct (run _ cs). Qed.

(** The two outcomes of [tr]. *)
Lemma tr_cases (st : state) (p : packet) (i : interface) :
  tr st p i = (None, st) \/
  exists pk, p = Some pk /\ pk <> [] /\ b_ "HASH:" = slice 0 5 pk /\
    (PBytes (slice 5 37 pk) ∉ seen st) /\
    tr st p i = (Some pk, add (PBytes (slice 5 37 pk)) st).
Proof.
  destruct p as [pk|]; [|by left].
  destruct (decide (pk = [])) as [->|Hne]; [by left|].
  destruct (decide (b_ "HASH:" = slice 0 5 pk)) as [Ht|Ht].
  - rewrite tr_tagged by done. case_decide; [by left|].
    right. by exists pk.
  - left. by apply tr_untagged.
Qed.

Lemma tx_seen (now : string) (st : state) (p : packet) (i : interface)
    (v : pyval) :
  v ∈ seen st -> v ∈ seen (tx now st p i).2.
Proof.
  intros Hv. destruct p as [pk|]; [|done].
  destruct (decide (pk = [])) as [->|Hne]; [done|].
  destruct (decide (b_ "HASH:" = slice 0 5 pk)) as [Ht|Ht].
  - rewrite tx_tagged by done. apply elem_of_seen_add. by right.
  - rewrite tx_untagged by done. apply elem_of_seen_add. by right.
Qed.

Lemma step_seen (st : state) (c : call) (v : pyval) :
  v ∈ seen st -> v ∈ seen (step st c).2.
Proof.
  intros Hv. destruct c as [now p i|p i]; cbn [step].
  - by apply tx_seen.
  - destruct (tr_cases st p i) as [->|(pk & _ & _ & _ & _ & ->)]; [done|].
    apply elem_of_seen_add. by right.
Qed.

Lemma run_seen (cs : list call) (st : state) (v : pyval) :
  v ∈ seen st -> v ∈ seen (run st cs).2.
Proof.
  revert st. induction cs as [|c cs IH]; intros st Hv; [done|].
  rewrite run_unfold. by apply IH, step_seen.
Qed.

Lemma delivered_seen (u : bytes) (cs : list call) (st : state) :
  PBytes u ∈ seen st -> delivered u cs (run st cs).1 = 0%nat.
Proof.
  revert st. induction cs as [|c cs IH]; intros st Hu; [done|].
  rewrite run_unfold. cbn [fst delivered].
  rewrite IH by (by apply step_seen).
  destruct c as [now p i|p i]; cbn [step delivered1]; [done|].
  destruct (tr_cases st p i) as [->|(pk & -> & _ & _ & Hn & ->)].
  - by destruct p.
  - cbn [fst]. case_bool_decide; [|done]. by subst.
Qed.

(** X7: once an instance has relayed ([tx]) or been offered ([tr]) a
    tagged packet, every later receive of a tagged packet with the same
    bytes 5..37 is dropped, whatever calls came in between and whatever
    the rest of the two packets is. *)
Theorem X7_seen_identifier_dropped_for_good
    (now : string) (st : state) (p q : bytes) (i j : interface)
    (cs : list call) :
  p <> [] -> q <> [] ->
  b_ "HASH:" = slice 0 5 p -> b_ "HASH:" = slice 0 5 q ->
  slice 5 37 q = slice 5 37 p ->
  (tr (run (tx now st (Some p) i).2 cs).2 (Some q) j).1 = None /\
  (tr (run (tr st (Some p) i).2 cs).2 (Some q) j).1 = None.
Proof.
  intros Hp Hq Htp Htq Hu.
  assert (Hdrop : forall s, PBytes (slice 5 37 p) ∈ seen s ->
            (tr (run s cs).2 (Some q) j).1 = None).
  { intros s Hs. rewrite tr_tagged by done. rewrite Hu.
    rewrite decide_True; [done|]. by apply run_seen. }
  split; apply Hdrop.
  - rewrite tx_tagged by done. apply elem_of_seen_add. by left.
  - rewrite tr_tagged by done. case_decide; [done|].
    apply elem_of_seen_add. by left.
Qed.

Lemma X7_seen_identifier_dropped_for_good_witness :
  let p := b_ "HASH:0123456789abcdef0123456789abcdef; one" in
  let q := b_ "HASH:0123456789abcdef0123456789abcdef; two" in
  (tr (run (tr (__init__ 12345) (Some p) "eth0").2
           [Send "1.5" (Some (b_ "x")) "eth1"]).2 (Some q) "eth1").1 = None.
Proof.
  cbn zeta.
  apply (X7_seen_identifier_dropped_for_good "0.0" (__init__ 12345)
           (b_ "HASH:0123456789abcdef0123456789abcdef; one")
           (b_ "HASH:0123456789abcdef0123456789abcdef; two")
           "eth0" "eth1" [Send "1.5" (Some (b_ "x")) "eth1"]); done.
Defined.

(** X8: over any sequence of calls from any state, [tr] passes at most one
    packet carrying a given identifier (bytes 5..37), and none when the
    identifier is already in [seen]. *)
Theorem X8_delivered_at_most_once
    (u : bytes) (cs : list call) (st : state) :
  (delivered u cs (run st cs).1
   <= if decide (PBytes u ∈ seen st) then 0 else 1)%nat.
Proof.
  revert st. induction cs as [|c cs IH]; intros st.
  - cbn. case_decide; lia.
  - case_decide as Hu; [by rewrite delivered_seen|].
    rewrite run_unfold. cbn [fst delivered].
    destruct c as [now p i|p i]; cbn [step delivered1].
    + specialize (IH (tx now st p i).2). case_decide; lia.
    + destruct (tr_cases st p i) as [E|(pk & -> & _ & _ & Hn & E)];
        rewrite E; cbn [fst snd].
      * specialize (IH st). rewrite decide_False in IH by done.
        destruct p; cbn; lia.
      * case_bool_decide as Hpk.
        -- subst u. rewrite delivered_seen; [lia|].
           apply elem_of_seen_add. by left.
        -- specialize (IH (add (PBytes (slice 5 37 pk)) st)).
           case_decide; lia.
Qed.

(** X9: [tx] never drops a non-empty packet; what it returns begins with
    the marker and ends with the packet it was given, and sending that
    result again, on any instance and interface at any time, returns it
    unchanged. *)
Theorem X9_sent_packet_is_tagged
    (now : string) (st : state) (p : bytes) (i : interface) :
  p <> [] ->
  exists t pre,
    (tx now st (Some p) i).1 = Some t /\ t = pre ++ p /\ t <> [] /\
    b_ "HASH:" = slice 0 5 t /\
    forall now' st' i', (tx now' st' (Some t) i').1 = Some t.
Proof.
  intros Hne. destruct (decide (b_ "HASH:" = slice 0 5 p)) as [Ht|Ht].
  - exists p, []. rewrite tx_tagged by done.
    repeat split; try done. intros now' st' i'. by rewrite tx_tagged.
  - exists (tagged now st i p).
    exists (b_ "HASH:" ++ b_ (fresh_id now st i) ++ b_ "; ").
    rewrite tx_untagged by done. split; [done|].
    split; [unfold tagged; by rewrite <- !app_assoc|].
    split; [apply tagged_nonempty|]. split; [apply tagged_marker|].
    intros now' st' i'.
    by rewrite tx_tagged by (apply tagged_nonempty || apply tagged_marker).
Qed.

Lemma X9_sent_packet_is_tagged_witness :
  exists t pre,
    (tx "1.5" (__init__ 12345) (Some (b_ "x")) "eth0").1 = Some t /\
    t = pre ++ b_ "x" /\ t <> [] /\ b_ "HASH:" = slice 0 5 t /\
    forall now' st' i', (tx now' st' (Some t) i').1 = Some t.
Proof.
  apply (X9_sent_packet_is_tagged "1.5" (__init__ 12345) (b_ "x") "eth0").
  done.
Defined.

(** X10: the identifier [tx] makes does not depend on the packet: two
    different untagged packets sent by one instance on the same interface
    at the same clock text carry the same identifier, so an instance that
    has not seen it passes the first and drops the second. *)
Theorem X10_identifier_ignores_payload
    (now : string) (st other : state) (p q : bytes) (i j : interface) :
  p <> [] -> q <> [] ->
  b_ "HASH:" <> slice 0 5 p -> b_ "HASH:" <> slice 0 5 q ->
  PBytes (b_ (fresh_id now st i)) ∉ seen other ->
  let st1 := (tx now st (Some p) i).2 in
  let t1 := tagged now st i p in
  let t2 := tagged now st i q in
  (tx now st (Some p) i).1 = Some t1 /\
  (tx now st1 (Some q) i).1 = Some t2 /\
  slice 5 37 t1 = slice 5 37 t2 /\
  (tr other (Some t1) j).1 = Some t1 /\
  (tr (tr other (Some t1) j).2 (Some t2) j).1 = None.
Proof.
  intros Hp Hq Hup Huq Hother. cbn zeta.
  rewrite !tx_untagged by done. cbn [fst snd].
  split; [done|]. split; [done|].
  split; [by rewrite !tagged_uuid|].
  rewrite !tr_tagged by (apply tagged_nonempty || apply tagged_marker).
  rewrite !tagged_uuid.
  rewrite (decide_False (P := _ ∈ seen other)) by done. cbn [fst snd].
  split; [done|].
  rewrite decide_True; [done|]. apply elem_of_seen_add. by left.
Qed.

Lemma X10_identifier_ignores_payload_witness :
  let st := __init__ 12345 in
  let t1 := b_ "HASH:48a9dd892f1afc95f0a24c338a8078e1; x" in
  let t2 := b_ "HASH:48a9dd892f1afc95f0a24c338a8078e1; y" in
  (tx "1.5" st (Some (b_ "x")) "eth0").1 = Some t1 /\
  (tx "1.5" (tx "1.5" st (Some (b_ "x")) "eth0").2 (Some (b_ "y")) "eth0").1
    = Some t2 /\
  (tr (tr (__init__ 54321) (Some t1) "eth0").2 (Some t2) "eth0").1 = None.
Proof.
  cbn zeta.
  destruct (X10_identifier_ignores_payload "1.5" (__init__ 12345)
              (__init__ 54321) (b_ "x") (b_ "y") "eth0" "eth0")
    as (H1 & H2 & _ & _ & H3); [done|done|done|done|set_solver|].
  split; [exact H1|]. split; [exact H2|exact H3].
Defined.

End UniqueFilterDelivery.

(** ** StringFilter: pattern types and boundary patterns *)

Module StringFilterPatterns.
Import StringFilter StringFilterProofs.

(** X11: with a text pattern, [tr] raises [TypeError] on every non-empty
    packet, whether the filter is inverted or not, while [tx] of the same
    filter still returns the packet. *)
Theorem X11_text_pattern_raises
    (s : string) (inv : bool) (p : bytes) (i : interface) :
  p <> [] ->
  tr (match_ (PStr s) inv) (Some p) i = Raise TypeError /\
  tx (match_ (PStr s) inv) (Some p) i = Return (Some p).
Proof. intros Hne. destruct p as [|b p]; [done|]. by destruct inv. Qed.

Lemma X11_text_pattern_raises_witness :
  b_ "green light" <> [] /\
  tr (dontmatch (PStr "red")) (Some (b_ "green light")) "eth0"
    = Raise TypeError.
Proof.
  split; [done|].
  apply (X11_text_pattern_raises "red" true (b_ "green light") "eth0").
  done.
Defined.

(** X12: for a bytes pattern and a non-empty packet, [match] and
    [dontmatch] of the same pattern split the traffic: exactly one of the
    two filters passes the packet and the other drops it. *)
Theorem X12_match_dontmatch_complementary
    (pat p : bytes) (i : interface) :
  p <> [] ->
  (tr (match_ (PBytes pat) false) (Some p) i = Return (Some p) /\
   tr (dontmatch (PBytes pat)) (Some p) i = Return None) \/
  (tr (match_ (PBytes pat) false) (Some p) i = Return None /\
   tr (dontmatch (PBytes pat)) (Some p) i = Return (Some p)).
Proof.
  intros Hne. unfold dontmatch. rewrite !tr_bytes by done. cbn [xorb].
  destruct (find pat p); [by left|by right].
Qed.

Lemma X12_match_dontmatch_complementary_witness :
  b_ "xfoox" <> [] /\
  ((tr (match_ (PBytes (b_ "foo")) false) (Some (b_ "xfoox")) "eth0"
      = Return (Some (b_ "xfoox")) /\
    tr (dontmatch (PBytes (b_ "foo"))) (Some (b_ "xfoox")) "eth0"
      = Return None) \/
   (tr (match_ (PBytes (b_ "foo")) false) (Some (b_ "xfoox")) "eth0"
      = Return None /\
    tr (dontmatch (PBytes (b_ "foo"))) (Some (b_ "xfoox")) "eth0"
      = Return (Some (b_ "xfoox")))).
Proof.
  split; [done|].
  apply (X12_match_dontmatch_complementary (b_ "foo") (b_ "xfoox") "eth0").
  done.
Defined.

Lemma find_length (pat l : bytes) :
  find pat l = true -> (length pat <= length l)%nat.
Proof.
  intros (l1 & l2 & ->)%find_spec. rewrite !length_app. lia.
Qed.

Lemma find_nil (l : bytes) : find [] l = true.
Proof. apply find_spec. by exists [], l. Qed.

Lemma find_self (l : bytes) : find l l = true.
Proof. apply find_spec. exists [], []. by rewrite app_nil_r. Qed.

(** X13: boundary patterns on a non-empty packet [p]: the empty pattern
    matches, so [match(b"")] passes [p] and [dontmatch(b"")] drops it; [p]
    itself as pattern matches; a pattern longer than [p] does not match, so
    [match] drops [p] and [dontmatch] passes it. *)
Theorem X13_boundary_patterns (pat p : bytes) (i : interface) :
  p <> [] ->
  tr (match_ (PBytes []) false) (Some p) i = Return (Some p) /\
  tr (dontmatch (PBytes [])) (Some p) i = Return None /\
  tr (match_ (PBytes p) false) (Some p) i = Return (Some p) /\
  ((length p < length pat)%nat ->
   tr (match_ (PBytes pat) false) (Some p) i = Return None /\
   tr (dontmatch (PBytes pat)) (Some p) i = Return (Some p)).
Proof.
  intros Hne. unfold dontmatch. rewrite !tr_bytes by done. cbn [xorb].
  rewrite find_nil, find_self. repeat split; try done.
  all: destruct (find pat p) eqn:Hf; [|done];
    apply find_length in Hf; lia.
Qed.

Lemma X13_boundary_patterns_witness :
  tr (match_ (PBytes (b_ "longer than the packet")) false)
     (Some (b_ "short")) "eth0" = Return None /\
  tr (dontmatch (PBytes (b_ "longer than the packet")))
     (Some (b_ "short")) "eth0" = Return (Some (b_ "short")).
Proof.
  apply (X13_boundary_patterns (b_ "longer than the packet") (b_ "short")
           "eth0"); [done|cbn; lia].
Defined.

End StringFilterPatterns.

(** ** What no filter does to a packet *)

(** X14: a filter either drops a packet or hands it on as it is: [tr] and
    [tx] of DuplicateFilter and LoopbackFilter, [tr] of UniqueFilter and
    [tr] of StringFilter (when it returns) give absent or the packet they
    were given, never another packet; [tx] of StringFilter and both
    BaseFilter methods give the packet back in every case. *)
Theorem X14_filters_pass_or_drop
    (p : packet) (i : interface) (hash : bytes -> Z)
    (ds : DuplicateFilter.state) (ls : LoopbackFilter.state)
    (us : UniqueFilter.state) (sf : StringFilter.cls) :
  let pass_or_drop (r : packet) := r = None \/ r = p in
  pass_or_drop (DuplicateFilter.tr ds p i).1 /\
  pass_or_drop (DuplicateFilter.tx ds p i).1 /\
  pass_or_drop (LoopbackFilter.tr hash ls p i).1 /\
  pass_or_drop (LoopbackFilter.tx hash ls p i).1 /\
  pass_or_drop (UniqueFilter.tr us p i).1 /\
  match StringFilter.tr sf p i with
  | Return r => pass_or_drop r
  | Raise _ => True
  end /\
  StringFilter.tx sf p i = Return p /\
  BaseFilter.tr p i = p /\ BaseFilter.tx p i = p.
Proof.
  cbn zeta. destruct p as [pk|]; [|by repeat split; left].
  destruct (decide (pk = [])) as [->|Hne]; [by repeat split; left|].
  repeat split.
  - rewrite DuplicateFilterProofs.tr_nonempty by done.
    case_decide; [by left|by right].
  - rewrite DuplicateFilterStreams.tx_swap. cbn [fst].
    rewrite DuplicateFilterProofs.tr_nonempty by done.
    case_decide; [by left|by right].
  - rewrite LoopbackFilterProofs.tr_result by done.
    destruct (0 <? _); [by left|by right].
  - rewrite LoopbackFilterProofs.tx_result by done. by right.
  - destruct (UniqueFilterDelivery.tr_cases us (Some pk) i)
      as [->|(pk' & [= <-] & _ & _ & _ & ->)]; [by left|by right].
  - destruct sf as [[s|pat] inv].
    + destruct pk; [done|]. by destruct inv.
    + fold (StringFilter.match_ (PBytes pat) inv).
      rewrite StringFilterProofs.tr_bytes by done.
      destruct (xorb _ _); [by right|by left].
Qed.
